(** * Artwork PDF extractor (app.py): a shallow embedding and its properties

    The program is one Python class, [ArtworkPDFExtractor], with three
    methods: [extract_images], [extract_text] and [identify_artwork_info].
    Everything else (PDF parsing, image decoding, the language model, the
    user interface) belongs to libraries and enters the development as data
    or as section variables.

    Conventions.
    - A Python [str] is a [string] holding its UTF-8 encoding: on well-formed
      UTF-8, byte-wise substring search and code-point-wise substring search
      agree, so [mot in s] is modelled on the bytes.
    - A Python exception is a value of [exception]; code that may raise
      returns a [result].
    - A method is a function from the instance to a result and the instance
      after the call ([method]).
    - The script [main] is run with what the file uploader returns; its
      outcome comes with the calls it made on the page ([script]). *)

From Stdlib Require Import ZArith NArith Strings.Byte Strings.Ascii Strings.String.
From stdpp Require Import gmap strings list fin_maps.
From stdpp Require Import pretty.

#[local] Set Warnings "-clear-no-such-hyp".

Open Scope string_scope.

(** ** Python values, exceptions and results *)

Module Py.

Inductive exception : Type :=
  | KeyError (key : string)
  | IndexError
  | TypeError
  | AttributeError
  | OSError
  | FileDataError
  | UnidentifiedImageError.

Inductive result (A : Type) : Type :=
  | Ok (a : A)
  | Raise (e : exception).
Arguments Ok {A} a.
Arguments Raise {A} e.

#[global] Instance result_ret : MRet result := λ A a, Ok a.
#[global] Instance result_bind : MBind result := λ A B f m,
  match m with
  | Ok a => f a
  | Raise e => Raise e
  end.

(** [for x in xs: acc = body acc x], stopping at the first exception. *)
Fixpoint for_each {A S : Type} (xs : list A) (acc : S)
    (body : S → A → result S) : result S :=
  match xs with
  | [] => Ok acc
  | x :: xs' => acc' ← body acc x; for_each xs' acc' body
  end.

(** The values that occur in the dictionaries of the program. *)
Inductive value : Type :=
  | Int (n : Z)
  | Str (s : string)
  | Bytes (b : list byte)
  | Set_ (xs : gset string).

(** [d[key]] *)
Definition getitem (d : gmap string value) (key : string) : result value :=
  match d !! key with
  | Some v => Ok v
  | None => Raise (KeyError key)
  end.

(** [d[key].add(x)]: the set stored under [key] is updated in place. *)
Definition getitem_add (key x : string) (d : gmap string value)
    : result (gmap string value) :=
  v ← getitem d key;
  match v with
  | Set_ xs => Ok (<[key := Set_ (xs ∪ {[x]})]> d)
  | _ => Raise AttributeError
  end.

(** [s.startswith(mot)] *)
Fixpoint startswith (mot s : string) : bool :=
  match mot, s with
  | EmptyString, _ => true
  | String _ _, EmptyString => false
  | String a mot', String b s' => Ascii.eqb a b && startswith mot' s'
  end.

(** [mot in s] on strings: [mot] occurs in [s] as a contiguous substring. *)
Fixpoint contains (mot s : string) : bool :=
  startswith mot s ||
  match s with
  | EmptyString => false
  | String _ s' => contains mot s'
  end.

(** [any(mot in s for mot in mots)] *)
Definition any_in (mots : list string) (s : string) : bool :=
  existsb (λ mot, contains mot s) mots.

(** [str.lower] on the code points below U+0100, read on the UTF-8 bytes:
    [A]..[Z] become [a]..[z], and after the lead byte 0xC3 the continuation
    bytes 0x80..0x9E other than 0x97 (U+00C0..U+00DE without the
    multiplication sign) are moved up by 0x20.  [after_c3] records that the
    previous byte was 0xC3. *)
Definition lower_byte (after_c3 : bool) (c : ascii) : ascii :=
  let n := N_of_ascii c in
  if after_c3 then
    if (128 <=? n)%N && (n <=? 158)%N && negb (n =? 151)%N
    then ascii_of_N (n + 32) else c
  else
    if (65 <=? n)%N && (n <=? 90)%N then ascii_of_N (n + 32) else c.

Fixpoint lower_from (after_c3 : bool) (s : string) : string :=
  match s with
  | EmptyString => EmptyString
  | String c s' =>
      String (lower_byte after_c3 c)
             (lower_from (negb after_c3 && (N_of_ascii c =? 195)%N) s')
  end.

Definition lower_latin1 (s : string) : string := lower_from false s.

End Py.
Import Py.

(** ** The annotation model (spaCy) as the program sees it *)

(** A span of an annotated text: [ent.text], [ent.label_], [sent.text]. *)
Record Span : Type := { text : string; label_ : string }.

(** An annotated text: [doc.ents] and [doc.sents]. *)
Record Doc : Type := { ents : list Span; sents : list Span }.

(** A loaded pipeline is called on a text: [self.nlp(text)]. *)
Definition Language : Type := string → Doc.

(** [s] is a contiguous range of [t]. *)
Definition range_of (s t : string) : Prop :=
  ∃ pre post : string, t = pre ++ s ++ post.

(** What a span of an annotation of [t] is: a non-empty range of [t]. *)
Definition annotates (t : string) (d : Doc) : Prop :=
  Forall (λ sp, text sp ≠ "" ∧ range_of (text sp) t) (ents d ++ sents d).

(** ** The parsed document (PyMuPDF) as the program sees it *)

(** An entry of [page.get_images(full=True)]; the program reads [img[0]]. *)
Record ImageItem : Type := {
  img_xref : Z;
  img_smask : Z;
  img_width : Z;
  img_height : Z;
  img_bpc : Z;
  img_colorspace : string;
  img_alt_colorspace : string;
  img_name : string;
  img_filter : string;
  img_referencer : Z
}.

Record Page : Type := {
  get_text : string;
  get_images : list ImageItem
}.

Record Document : Type := {
  pages : list Page;
  extract_image : Z → result (gmap string value)
}.

(** [document[page_num]] *)
Definition load_page (document : Document) (page_num : nat) : result Page :=
  match pages document !! page_num with
  | Some page => Ok page
  | None => Raise IndexError
  end.

(** ** The class *)

Record ArtworkPDFExtractor : Type := {
  document : Document;
  nlp : option Language
}.

(** A method call: its outcome and the instance after the call. *)
Definition method (A : Type) : Type :=
  ArtworkPDFExtractor → result A * ArtworkPDFExtractor.

#[global] Instance method_ret : MRet method := λ A a self, (Ok a, self).
#[global] Instance method_bind : MBind method := λ A B f m self,
  match m self with
  | (Ok a, self') => f a self'
  | (Raise e, self') => (Raise e, self')
  end.

(** Reading an attribute of [self]. *)
Definition attr {A : Type} (field : ArtworkPDFExtractor → A) : method A :=
  λ self, (Ok (field self), self).

(** A computation on local variables only. *)
Definition local {A : Type} (r : result A) : method A := λ self, (r, self).

Section Extractor.

(** [str.lower], [PIL.Image.open] on the bytes of a stream, [fitz.open] and
    [spacy.load]. *)
Variable lower : string → string.
Variable PILImage : Type.
Variable Image_open : list byte → result PILImage.
Variable fitz_open : list byte → result Document.
Variable spacy_load : string → result Language.

(** [__init__]: a missing model is reported and leaves [nlp] at [None]. *)
Definition __init__ (pdf_file : list byte) : result ArtworkPDFExtractor :=
  document ← fitz_open pdf_file;
  match spacy_load "fr_core_news_md" with
  | Ok model => Ok {| document := document; nlp := Some model |}
  | Raise OSError => Ok {| document := document; nlp := None |}
  | Raise e => Raise e
  end.

(** The body of the inner loop of [extract_images]. *)
Definition extract_one (document : Document) (images : list PILImage)
    (img : ImageItem) : result (list PILImage) :=
  base_image ← extract_image document (img_xref img);
  image_bytes ← getitem base_image "image";
  match image_bytes with
  | Bytes b =>
      pil_image ← Image_open b;
      Ok (images ++ [pil_image])%list
  | _ => Raise TypeError
  end.

Definition extract_images : method (list PILImage) :=
  document ← attr document;
  local (for_each (seq 0 (length (pages document))) []
    (λ images page_num,
       page ← load_page document page_num;
       for_each (get_images page) images (extract_one document))).

Definition extract_text : method string :=
  document ← attr document;
  local (for_each (pages document) ""
    (λ full_text page, Ok (full_text ++ get_text page))).

(** The body of the loop over [doc.ents]. *)
Definition entity_step (artwork_info : gmap string value) (ent : Span)
    : result (gmap string value) :=
  if decide (label_ ent = "PER") then
    getitem_add "artistes" (text ent) artwork_info
  else if decide (label_ ent = "WORK_OF_ART") then
    getitem_add "titres" (text ent) artwork_info
  else Ok artwork_info.

(** The body of the loop over [doc.sents]. *)
Definition sentence_step (artwork_info : gmap string value) (sent : Span)
    : result (gmap string value) :=
  artwork_info ←
    (if any_in ["date"; "année"; "créé en"] (lower (text sent))
     then getitem_add "dates" (text sent) artwork_info
     else Ok artwork_info);
  if any_in ["technique"; "huile"; "aquarelle"; "acrylique"]
            (lower (text sent))
  then getitem_add "techniques" (text sent) artwork_info
  else Ok artwork_info.

Definition identify_artwork_info (text : string)
    : method (gmap string value) :=
  model ← attr nlp;
  match model with
  | None => mret {[ "erreur" := Str "Modèle NLP non disponible" ]}
  | Some model =>
      let doc := model text in
      let artwork_info : gmap string value :=
        {[ "artistes" := Set_ ∅;
           "titres" := Set_ ∅;
           "dates" := Set_ ∅;
           "techniques" := Set_ ∅;
           "dimensions" := Set_ ∅ ]} in
      local (artwork_info ← for_each (ents doc) artwork_info entity_step;
             for_each (sents doc) artwork_info sentence_step)
  end.

End Extractor.

Arguments extract_one {PILImage} Image_open document images img.
Arguments extract_images {PILImage} Image_open self.

(** ** The vocabulary of the statements *)

(** The dictionary of the five categories. *)
Definition info (artistes titres dates techniques dimensions : gset string)
    : gmap string value :=
  {[ "artistes" := Set_ artistes;
     "titres" := Set_ titres;
     "dates" := Set_ dates;
     "techniques" := Set_ techniques;
     "dimensions" := Set_ dimensions ]}.

(** The surface texts of the entities labelled [l]. *)
Definition labelled (l : string) (es : list Span) : gset string :=
  list_to_set (text <$> filter (λ e, label_ e = l) es).

(** The texts of the sentences whose lower-cased text contains one of
    [mots]. *)
Definition mentioning (lower : string → string) (mots : list string)
    (ss : list Span) : gset string :=
  list_to_set
    (text <$> filter (λ s, any_in mots (lower (text s)) = true) ss).

Definition mots_dates : list string := ["date"; "année"; "créé en"].
Definition mots_techniques : list string :=
  ["technique"; "huile"; "aquarelle"; "acrylique"].

(** What the loop body does to one listed resource: fetch its stream, take
    the encoded bytes, decode them. *)
Definition decode_item {PILImage : Type}
    (Image_open : list byte → result PILImage) (document : Document)
    (img : ImageItem) : result PILImage :=
  base_image ← extract_image document (img_xref img);
  image_bytes ← getitem base_image "image";
  match image_bytes with
  | Bytes b => Image_open b
  | _ => Raise TypeError
  end.

(** The resources of a document in page order, then listing order. *)
Definition listed_images (document : Document) : list ImageItem :=
  concat (get_images <$> pages document).

(** The instance after classifying each of [texts] in turn. *)
Definition after_classifying (lower : string → string) (texts : list string)
    (self : ArtworkPDFExtractor) : ArtworkPDFExtractor :=
  foldl (λ self text0, snd (identify_artwork_info lower text0 self))
        self texts.

(** ** Concrete inputs *)

Module Fixtures.

(** A pipeline that reports the entities [es] and takes a non-empty text as
    one sentence. *)
Definition one_sentence (es : list Span) : Language := λ t,
  if decide (t = "") then {| ents := []; sents := [] |}
  else {| ents := es; sents := [{| text := t; label_ := "" |}] |}.

(** A decoder that knows one format: the first four bytes of the PNG
    signature, then the pixels. *)
Definition png_open (stream : list byte) : result (list byte) :=
  match stream with
  | x89 :: x50 :: x4e :: x47 :: pixels => Ok pixels
  | _ => Raise UnidentifiedImageError
  end.

Definition item (n : Z) : ImageItem :=
  {| img_xref := n; img_smask := 0; img_width := 1; img_height := 1;
     img_bpc := 8; img_colorspace := "DeviceRGB"; img_alt_colorspace := "";
     img_name := "Im"; img_filter := "FlateDecode"; img_referencer := 0 |}.

Definition png (pixels : list byte) : gmap string value :=
  {[ "ext" := Str "png"; "width" := Int 1; "height" := Int 1;
     "image" := Bytes (x89 :: x50 :: x4e :: x47 :: pixels) ]}.

Definition no_pages : Document :=
  {| pages := []; extract_image := λ _, Raise FileDataError |}.

(** Two pages, three images. *)
Definition catalogue : Document :=
  {| pages :=
       [ {| get_text := "Jean Dupont. ";
            get_images := [item 7; item 9] |};
         {| get_text := "Huile sur toile, créé en 1990.";
            get_images := [item 12] |} ];
     extract_image := λ n,
       if decide (n = 7)%Z then Ok (png [x07])
       else if decide (n = 9)%Z then Ok (png [x09])
       else if decide (n = 12)%Z then Ok (png [x0c])
       else Raise FileDataError |}.

(** One page, one image whose stream is not an image. *)
Definition damaged : Document :=
  {| pages := [ {| get_text := ""; get_images := [item 5] |} ];
     extract_image := λ _,
       Ok {[ "ext" := Str "png"; "image" := Bytes [x00] ]} |}.

Definition jean_dupont : Span :=
  {| text := "Jean Dupont"; label_ := "PER" |}.

End Fixtures.
Import Fixtures.

(** ** The script (Streamlit) *)

(** The calls a run of the script makes on the page.  A column is named by
    its position in the row that [st.columns] returned; [st_image] records
    the column whose [with] block encloses the call. *)
Inductive st_call (PILImage : Type) : Type :=
  | st_title (body : string)
  | st_file_uploader (label type : string)
  | st_warning (body : string)
  | st_header (body : string)
  | st_subheader (body : string)
  | st_text_area (label value : string) (height : Z)
  | st_json (body : gmap string value)
  | st_columns (spec : nat)
  | st_image (column : nat) (image : PILImage) (caption : string)
             (use_column_width : bool).
Arguments st_title {PILImage} body.
Arguments st_file_uploader {PILImage} label type.
Arguments st_warning {PILImage} body.
Arguments st_header {PILImage} body.
Arguments st_subheader {PILImage} body.
Arguments st_text_area {PILImage} label value height.
Arguments st_json {PILImage} body.
Arguments st_columns {PILImage} spec.
Arguments st_image {PILImage} column image caption use_column_width.

(** A run of script code: its outcome and the calls made, in order; the
    calls made before an exception stay on the page. *)
Definition script (PILImage A : Type) : Type :=
  result A * list (st_call PILImage).

#[global] Instance script_ret {PILImage : Type} : MRet (script PILImage) :=
  λ A a, (Ok a, []).
#[global] Instance script_bind {PILImage : Type} : MBind (script PILImage) :=
  λ A B f m,
    match m with
    | (Ok a, calls) => let '(r, calls') := f a in (r, (calls ++ calls')%list)
    | (Raise e, calls) => (Raise e, calls)
    end.

(** One call on the page. *)
Definition render {PILImage : Type} (c : st_call PILImage)
    : script PILImage unit := (Ok tt, [c]).

(** Code that makes no call on the page. *)
Definition quiet {PILImage A : Type} (r : result A) : script PILImage A :=
  (r, []).

(** A method call on [extractor]: its value and the instance afterwards. *)
Definition invoke {PILImage A : Type} (m : method A)
    (extractor : ArtworkPDFExtractor)
    : script PILImage (A * ArtworkPDFExtractor) :=
  match m extractor with
  | (Ok a, extractor') => quiet (Ok (a, extractor'))
  | (Raise e, _) => quiet (Raise e)
  end.

(** [for i, x in enumerate(xs, start): body i x] *)
Fixpoint for_enumerate {PILImage A : Type} (start : nat) (xs : list A)
    (body : nat → A → script PILImage unit) : script PILImage unit :=
  match xs with
  | [] => mret tt
  | x :: xs' => _ ← body start x; for_enumerate (S start) xs' body
  end.

(** [cols[i]] *)
Definition column (cols : list nat) (i : nat) : result nat :=
  match cols !! i with
  | Some col => Ok col
  | None => Raise IndexError
  end.

Section Script.

Variable lower : string → string.
Variable PILImage : Type.
Variable Image_open : list byte → result PILImage.
Variable fitz_open : list byte → result Document.
Variable spacy_load : string → result Language.

(** [ArtworkPDFExtractor(pdf_file)] in the script: [__init__] with the call
    of [st.warning] it makes when the model is not found. *)
Definition new_extractor (pdf_file : list byte)
    : script PILImage ArtworkPDFExtractor :=
  document ← quiet (fitz_open pdf_file);
  match spacy_load "fr_core_news_md" with
  | Ok model => mret {| document := document; nlp := Some model |}
  | Raise OSError =>
      _ ← render (st_warning
        "Modèle spaCy non trouvé. Certaines fonctionnalités seront limitées.");
      mret {| document := document; nlp := None |}
  | Raise e => quiet (Raise e)
  end.

(** [main], run with what the file uploader returns: [None] or the bytes of
    the uploaded file. *)
Definition main (uploaded_file : option (list byte))
    : script PILImage unit :=
  _ ← render (st_title "Extracteur d'Œuvres d'Art à partir de PDF");
  _ ← render (st_file_uploader "Télécharger un fichier PDF" "pdf");
  match uploaded_file with
  | None => mret tt
  | Some pdf_bytes =>
      extractor ← new_extractor pdf_bytes;
      _ ← render (st_header "Résultats de l'extraction");
      _ ← render (st_subheader "Texte Extrait");
      '(full_text, extractor) ← invoke extract_text extractor;
      _ ← render (st_text_area "Contenu du PDF" full_text 200);
      _ ← render (st_subheader "Informations sur les Œuvres");
      '(artwork_info, extractor) ←
        invoke (identify_artwork_info lower full_text) extractor;
      _ ← render (st_json artwork_info);
      _ ← render (st_subheader "Images Extraites");
      '(images, extractor) ← invoke (extract_images Image_open) extractor;
      let spec := 3 `min` (length images + 1) in
      _ ← render (st_columns spec);
      let cols := seq 0 spec in
      for_enumerate 0 images (λ i img,
        col ← quiet (column cols (i `mod` 3));
        render (st_image col img ("Image " ++ pretty (i + 1)) true))
  end.

End Script.

Arguments new_extractor {PILImage} fitz_open spacy_load pdf_file.
Arguments main lower {PILImage} Image_open fitz_open spacy_load uploaded_file.



(** Whether the instance has no model. *)
Definition degraded (self : ArtworkPDFExtractor) : bool :=
  match nlp self with
  | Some _ => false
  | None => true
  end.

Module Screens.


(** Pipelines that report a fixed annotation. *)
Definition la_joconde : Span :=
  {| text := "La Joconde"; label_ := "WORK_OF_ART" |}.
Definition dated : Span :=
  {| text := "Créé en 1503."; label_ := "" |}.
Definition painted : Span :=
  {| text := "Huile sur bois."; label_ := "" |}.
Definition annotated (es ss : list Span) : Language :=
  λ _, {| ents := es; sents := ss |}.

(** Streams: 7 is an image, 5 is not one, any other has no "image". *)
Definition streams (n : Z) : result (gmap string value) :=
  if decide (n = 7)%Z then Ok (png [x07])
  else if decide (n = 5)%Z then Ok {[ "image" := Bytes [x00] ]}
  else Ok ∅.

(** The undecodable stream comes before the one without "image". *)
Definition mixed : Document :=
  {| pages :=
       [ {| get_text := "a"; get_images := [item 7; item 5] |};
         {| get_text := "b"; get_images := [item 3] |} ];
     extract_image := streams |}.

(** The stream without "image" comes first. *)
Definition keyless : Document :=
  {| pages := [ {| get_text := ""; get_images := [item 7; item 3; item 5] |} ];
     extract_image := streams |}.

(** The images of [catalogue] on one page, listed with other sizes. *)
Definition wide (n : Z) : ImageItem :=
  {| img_xref := n; img_smask := 0; img_width := 640; img_height := 480;
     img_bpc := 8; img_colorspace := "DeviceGray"; img_alt_colorspace := "";
     img_name := "X"; img_filter := "DCTDecode"; img_referencer := 0 |}.
Definition one_page : Document :=
  {| pages := [ {| get_text := ""; get_images := [wide 7; wide 9; wide 12] |} ];
     extract_image := extract_image catalogue |}.

End Screens.
Import Screens.

(** * Lemmas *)

(** ** Substring search *)

Lemma startswith_spec (p s : string) :
  startswith p s = true ↔ ∃ post, s = p ++ post.
Proof.
  revert s. induction p as [|c p IH]; intros s; simpl.
  - split; [intros _; by exists s | done].
  - destruct s as [|c' s]; simpl.
    + split; [done | intros [post H]; discriminate H].
    + rewrite andb_true_iff, Ascii.eqb_eq, IH. split.
      * intros [-> [post ->]]. by exists post.
      * intros [post H]. injection H as -> ->. split; [done | by exists post].
Qed.

Lemma contains_spec (mot s : string) :
  contains mot s = true ↔ range_of mot s.
Proof.
  unfold range_of. induction s as [|c s IH]; simpl.
  - rewrite orb_false_r, startswith_spec. split.
    + intros [post H]. by exists "", post.
    + intros ([|c pre] & post & H); [by exists post | discriminate H].
  - rewrite orb_true_iff, startswith_spec, IH. split.
    + intros [[post H] | (pre & post & H)].
      * by exists "", post.
      * exists (String c pre), post. simpl. by rewrite H.
    + intros ([|c' pre] & post & H).
      * left. by exists post.
      * right. exists pre, post. simpl in H. by injection H.
Qed.

Lemma any_in_spec (mots : list string) (s : string) :
  any_in mots s = true ↔ ∃ mot, mot ∈ mots ∧ range_of mot s.
Proof.
  unfold any_in. rewrite existsb_exists. split.
  - intros (mot & Hin & H). exists mot. split.
    + by apply list_elem_of_In.
    + by apply contains_spec.
  - intros (mot & Hin & H). exists mot. split.
    + by apply list_elem_of_In.
    + by apply contains_spec.
Qed.

(** ** The five-category dictionary *)

Lemma add_artistes x a t d q m :
  getitem_add "artistes" x (info a t d q m) = Ok (info (a ∪ {[x]}) t d q m).
Proof. reflexivity. Qed.

Lemma add_titres x a t d q m :
  getitem_add "titres" x (info a t d q m) = Ok (info a (t ∪ {[x]}) d q m).
Proof. reflexivity. Qed.

Lemma add_dates x a t d q m :
  getitem_add "dates" x (info a t d q m) = Ok (info a t (d ∪ {[x]}) q m).
Proof. reflexivity. Qed.

Lemma add_techniques x a t d q m :
  getitem_add "techniques" x (info a t d q m) = Ok (info a t d (q ∪ {[x]}) m).
Proof. reflexivity. Qed.

(** ** What the two passes compute *)

Lemma elem_of_labelled (l x : string) (es : list Span) :
  x ∈ labelled l es ↔ ∃ e, e ∈ es ∧ label_ e = l ∧ text e = x.
Proof.
  unfold labelled. rewrite elem_of_list_to_set, list_elem_of_fmap.
  setoid_rewrite list_elem_of_filter. naive_solver.
Qed.

Lemma elem_of_mentioning lower (mots : list string) (x : string)
    (ss : list Span) :
  x ∈ mentioning lower mots ss ↔
  ∃ s, s ∈ ss ∧ text s = x ∧
       ∃ mot, mot ∈ mots ∧ range_of mot (lower (text s)).
Proof.
  unfold mentioning. rewrite elem_of_list_to_set, list_elem_of_fmap.
  setoid_rewrite list_elem_of_filter. setoid_rewrite any_in_spec.
  naive_solver.
Qed.

Lemma labelled_cons (l : string) (e : Span) (es : list Span) :
  labelled l (e :: es) = labelled l [e] ∪ labelled l es.
Proof.
  unfold labelled. rewrite !filter_cons, filter_nil.
  case_decide; set_solver.
Qed.

Lemma mentioning_cons lower (mots : list string) (s : Span)
    (ss : list Span) :
  mentioning lower mots (s :: ss) =
  mentioning lower mots [s] ∪ mentioning lower mots ss.
Proof.
  unfold mentioning. rewrite !filter_cons, filter_nil.
  case_decide; set_solver.
Qed.

Section Passes.

Variable lower : string → string.

Lemma entity_step_info (e : Span) (a t d q m : gset string) :
  entity_step (info a t d q m) e =
  Ok (info (a ∪ labelled "PER" [e]) (t ∪ labelled "WORK_OF_ART" [e]) d q m).
Proof.
  unfold entity_step, labelled. rewrite !filter_cons, !filter_nil.
  destruct (decide (label_ e = "PER")) as [HP|HP].
  - rewrite add_artistes, decide_False by (rewrite HP; discriminate).
    do 2 f_equal; set_solver.
  - destruct (decide (label_ e = "WORK_OF_ART")) as [HW|HW].
    + rewrite add_titres. do 2 f_equal; set_solver.
    + do 2 f_equal; set_solver.
Qed.

Lemma sentence_step_info (s : Span) (a t d q m : gset string) :
  sentence_step lower (info a t d q m) s =
  Ok (info a t (d ∪ mentioning lower mots_dates [s])
               (q ∪ mentioning lower mots_techniques [s]) m).
Proof.
  unfold sentence_step, mentioning. rewrite !filter_cons, !filter_nil.
  fold mots_dates mots_techniques.
  destruct (any_in mots_dates (lower (text s))) eqn:Hd;
    destruct (any_in mots_techniques (lower (text s))) eqn:Hq;
    rewrite ?add_dates; cbn [mbind result_bind]; rewrite ?add_techniques;
    repeat (first [rewrite decide_True by done
                  |rewrite decide_False by done]);
    do 2 f_equal; set_solver.
Qed.

Lemma entity_pass (es : list Span) (a t d q m : gset string) :
  for_each es (info a t d q m) entity_step =
  Ok (info (a ∪ labelled "PER" es) (t ∪ labelled "WORK_OF_ART" es) d q m).
Proof.
  revert a t. induction es as [|e es IH]; intros a t.
  - cbn [for_each]. unfold labelled. rewrite filter_nil. cbn [fmap list_fmap].
    do 2 f_equal; set_solver.
  - cbn [for_each]. rewrite entity_step_info. cbn [mbind result_bind].
    rewrite IH, (labelled_cons "PER" e es), (labelled_cons "WORK_OF_ART" e es).
    do 2 f_equal; set_solver.
Qed.

Lemma sentence_pass (ss : list Span) (a t d q m : gset string) :
  for_each ss (info a t d q m) (sentence_step lower) =
  Ok (info a t (d ∪ mentioning lower mots_dates ss)
               (q ∪ mentioning lower mots_techniques ss) m).
Proof.
  revert d q. induction ss as [|s ss IH]; intros d q.
  - cbn [for_each]. unfold mentioning. rewrite !filter_nil.
    cbn [fmap list_fmap]. do 2 f_equal; set_solver.
  - cbn [for_each]. rewrite sentence_step_info. cbn [mbind result_bind].
    rewrite IH, (mentioning_cons _ mots_dates s ss),
      (mentioning_cons _ mots_techniques s ss).
    do 2 f_equal; set_solver.
Qed.

(** The classification of an annotated text, when a model is loaded. *)
Lemma identify_available (document : Document) (model : Language)
    (text0 : string) :
  identify_artwork_info lower text0
    {| document := document; nlp := Some model |} =
  (Ok (info (labelled "PER" (ents (model text0)))
            (labelled "WORK_OF_ART" (ents (model text0)))
            (mentioning lower mots_dates (sents (model text0)))
            (mentioning lower mots_techniques (sents (model text0)))
            ∅),
   {| document := document; nlp := Some model |}).
Proof.
  change (identify_artwork_info lower text0
            {| document := document; nlp := Some model |}) with
    (for_each (ents (model text0)) (info ∅ ∅ ∅ ∅ ∅) entity_step ≫=
       (λ artwork_info,
          for_each (sents (model text0)) artwork_info (sentence_step lower)),
     {| document := document; nlp := Some model |}).
  rewrite entity_pass. cbn [mbind result_bind]. rewrite sentence_pass.
  do 3 f_equal; set_solver.
Qed.

End Passes.

(** ** Text extraction *)

Lemma string_app_nil_r (s : string) : s ++ "" = s.
Proof.
  induction s as [|c s IH]; [done|].
  change (String c s ++ "") with (String c (s ++ "")). by rewrite IH.
Qed.

Lemma string_app_assoc (s t u : string) : (s ++ t) ++ u = s ++ (t ++ u).
Proof.
  induction s as [|c s IH]; [done|].
  change (String c ((s ++ t) ++ u) = String c (s ++ (t ++ u))).
  by rewrite IH.
Qed.

Lemma concat_cons (x : string) (xs : list string) :
  String.concat "" (x :: xs) = x ++ String.concat "" xs.
Proof. destruct xs; [symmetry; apply string_app_nil_r | done]. Qed.

Lemma extract_text_loop (ps : list Page) (acc : string) :
  for_each ps acc (λ full_text page, Ok (full_text ++ get_text page)) =
  Ok (acc ++ String.concat "" (get_text <$> ps)).
Proof.
  revert acc. induction ps as [|p ps IH]; intros acc.
  - cbn [for_each fmap list_fmap String.concat].
    by rewrite string_app_nil_r.
  - cbn [for_each mbind result_bind]. rewrite IH, fmap_cons, concat_cons.
    by rewrite string_app_assoc.
Qed.

(** ** Image extraction *)

Lemma for_each_app {A S : Type} (xs ys : list A) (acc : S)
    (body : S → A → result S) :
  for_each (xs ++ ys)%list acc body =
  for_each xs acc body ≫= (λ acc', for_each ys acc' body).
Proof.
  revert acc. induction xs as [|x xs IH]; intros acc; [done|].
  cbn [for_each app]. destruct (body acc x) as [acc'|e]; [|done].
  cbn [mbind result_bind]. apply IH.
Qed.

(** A loop over the elements of lists is a loop over their concatenation. *)
Lemma for_each_concat {A S : Type} (xss : list (list A)) (acc : S)
    (body : S → A → result S) :
  for_each xss acc (λ acc xs, for_each xs acc body) =
  for_each (concat xss) acc body.
Proof.
  revert acc. induction xss as [|xs xss IH]; intros acc; [done|].
  cbn [for_each concat]. rewrite for_each_app.
  destruct (for_each xs acc body) as [acc'|e]; [|done].
  cbn [mbind result_bind]. apply IH.
Qed.

(** The loop over page numbers visits the pages in order. *)
Lemma for_each_page_num {S : Type} (document : Document) (ps : list Page)
    (i : nat) (acc : S) (body : S → Page → result S) :
  drop i (pages document) = ps →
  for_each (seq i (length ps)) acc
    (λ acc page_num, page ← load_page document page_num; body acc page) =
  for_each ps acc body.
Proof.
  revert i acc. induction ps as [|p ps IH]; intros i acc Hdrop; [done|].
  cbn [length seq for_each].
  assert (pages document !! i = Some p) as Hi.
  { rewrite <-(Nat.add_0_r i), <-lookup_drop, Hdrop. done. }
  assert (load_page document i = Ok p) as ->
    by (unfold load_page; by rewrite Hi).
  cbn [mbind result_bind].
  destruct (body acc p) as [acc'|e]; [|done].
  cbn [mbind result_bind]. apply IH.
  rewrite (drop_S _ _ _ Hi) in Hdrop. by injection Hdrop.
Qed.

Section Images.

Variable PILImage : Type.
Variable Image_open : list byte → result PILImage.

Lemma extract_one_decode (document : Document) (images : list PILImage)
    (img : ImageItem) :
  extract_one Image_open document images img =
  pil_image ← decode_item Image_open document img; Ok (images ++ [pil_image])%list.
Proof.
  unfold extract_one, decode_item.
  destruct (extract_image document (img_xref img)) as [base_image|e]; [|done].
  cbn [mbind result_bind].
  destruct (getitem base_image "image") as [[n|s|b|xs]|e]; done.
Qed.

Lemma extract_images_flat (self : ArtworkPDFExtractor) :
  extract_images Image_open self =
  (for_each (listed_images (document self)) []
     (extract_one Image_open (document self)), self).
Proof.
  change (extract_images Image_open self) with
    (for_each (seq 0 (length (pages (document self)))) []
       (λ images page_num,
          page ← load_page (document self) page_num;
          for_each (get_images page) images
            (extract_one Image_open (document self))), self).
  f_equal. etrans.
  { apply (for_each_page_num (document self) (pages (document self)) 0 []
             (λ images page,
                for_each (get_images page) images
                  (extract_one Image_open (document self)))). done. }
  unfold listed_images. rewrite <-for_each_concat.
  generalize (@nil PILImage). induction (pages (document self)) as [|p ps IH];
    intros acc; [done|].
  cbn [for_each fmap list_fmap].
  destruct (for_each (get_images p) acc _) as [acc'|e]; [|done].
  cbn [mbind result_bind]. apply IH.
Qed.

Lemma decode_all (document : Document) (items : list ImageItem)
    (images decoded : list PILImage) :
  Forall2 (λ img b, decode_item Image_open document img = Ok b) items decoded →
  for_each items images (extract_one Image_open document) =
  Ok (images ++ decoded)%list.
Proof.
  intros H. revert images.
  induction H as [|img b items decoded Hb _ IH]; intros images.
  - cbn [for_each]. by rewrite app_nil_r.
  - cbn [for_each]. rewrite extract_one_decode, Hb.
    cbn [mbind result_bind]. rewrite IH. by rewrite <-app_assoc.
Qed.

Lemma decoded_all (document : Document) (items : list ImageItem)
    (images result_ : list PILImage) :
  for_each items images (extract_one Image_open document) = Ok result_ →
  ∃ decoded, result_ = (images ++ decoded)%list ∧
    Forall2 (λ img b, decode_item Image_open document img = Ok b) items decoded.
Proof.
  revert images. induction items as [|img items IH]; intros images H.
  - cbn [for_each] in H. injection H as <-. exists [].
    by rewrite app_nil_r.
  - cbn [for_each] in H. rewrite extract_one_decode in H.
    destruct (decode_item Image_open document img) as [b|e] eqn:Hb; [|done].
    cbn [mbind result_bind] in H. apply IH in H as (decoded & -> & HF).
    exists (b :: decoded). rewrite <-app_assoc. split; [done|].
    by constructor.
Qed.

(** The first resource that does not decode ends the call. *)
Lemma decode_fails (document : Document) (items rest : list ImageItem)
    (img : ImageItem) (images decoded : list PILImage) (e : exception) :
  Forall2 (λ img b, decode_item Image_open document img = Ok b) items decoded →
  decode_item Image_open document img = Raise e →
  for_each (items ++ img :: rest)%list images
    (extract_one Image_open document) = Raise e.
Proof.
  intros HF He. rewrite for_each_app, (decode_all _ _ _ _ HF).
  cbn [mbind result_bind for_each]. by rewrite extract_one_decode, He.
Qed.

End Images.

Example lower_latin1_accents :
  lower_latin1 "CRÉÉ EN 1990 × Huile" = "créé en 1990 × huile".
Proof. reflexivity. Qed.

Example extract_text_catalogue :
  fst (extract_text {| document := catalogue; nlp := None |}) =
  Ok "Jean Dupont. Huile sur toile, créé en 1990.".
Proof. reflexivity. Qed.

Example extract_images_catalogue :
  fst (extract_images png_open {| document := catalogue; nlp := None |}) =
  Ok [[x07]; [x09]; [x0c]].
Proof. reflexivity. Qed.

Example identify_catalogue :
  fst (identify_artwork_info lower_latin1
         "Jean Dupont. Huile sur toile, Créé en 1990."
         {| document := catalogue;
            nlp := Some (one_sentence [jean_dupont]) |}) =
  Ok (info {[ "Jean Dupont" ]} ∅
        {[ "Jean Dupont. Huile sur toile, Créé en 1990." ]}
        {[ "Jean Dupont. Huile sur toile, Créé en 1990." ]} ∅).
Proof. vm_compute. reflexivity. Qed.

(** * Properties of the classifier *)

Lemma labelled_filter (l : string) (P : Span → Prop)
    `{∀ e, Decision (P e)} (es : list Span) :
  (∀ e, label_ e = l → P e) → labelled l (filter P es) = labelled l es.
Proof.
  intros HP. apply set_eq. intros x. rewrite !elem_of_labelled.
  setoid_rewrite list_elem_of_filter. naive_solver.
Qed.

Lemma labelled_empty (l : string) (es : list Span) :
  (∀ e, e ∈ es → label_ e ≠ l) → labelled l es = ∅.
Proof.
  intros H. apply set_eq. intros x. rewrite elem_of_labelled.
  set_solver.
Qed.

Lemma mentioning_empty lower (mots : list string) (ss : list Span) :
  (∀ s mot, s ∈ ss → mot ∈ mots → ¬ range_of mot (lower (text s))) →
  mentioning lower mots ss = ∅.
Proof.
  intros H. apply set_eq. intros x. rewrite elem_of_mentioning.
  split; [|set_solver]. intros (s & Hs & _ & mot & Hmot & Hr).
  destruct (H s mot Hs Hmot Hr).
Qed.

Lemma range_of_empty (s : string) : range_of s "" → s = "".
Proof.
  intros (pre & post & H). destruct pre; [|discriminate H].
  destruct s; [done | discriminate H].
Qed.

(** An annotation of the empty text has no span. *)
Lemma annotates_empty (d : Doc) :
  annotates "" d → ents d = [] ∧ sents d = [].
Proof.
  unfold annotates. intros H.
  destruct (ents d ++ sents d)%list as [|sp l] eqn:E.
  - by apply app_eq_nil in E.
  - apply Forall_cons in H as [[Hne Hr] _]. by apply range_of_empty in Hr.
Qed.

Lemma getitem_add_other (key other x : string) (d d' : gmap string value) :
  key ≠ other → getitem_add key x d = Ok d' → d' !! other = d !! other.
Proof.
  intros Hne. unfold getitem_add, getitem.
  destruct (d !! key) as [[n|s|b|xs]|]; cbn [mbind result_bind]; try done.
  intros [= <-]. by rewrite lookup_insert_ne.
Qed.

(** C1 (as amended): with a model loaded, every sentence whose lower-cased
    text contains one of "date", "année", "créé en" is in [dates] with its
    original text, and every sentence whose lower-cased text contains one of
    "technique", "huile", "aquarelle", "acrylique" is in [techniques]; when
    no entity is labelled PER or WORK_OF_ART, a sentence containing "huile"
    is in [techniques] while [artistes], [titres] and [dimensions] are
    empty. *)
Theorem sentence_keywords (lower : string → string) (document : Document)
    (model : Language) (text0 : string) :
  let self := {| document := document; nlp := Some model |} in
  ∃ a t d q : gset string,
    identify_artwork_info lower text0 self = (Ok (info a t d q ∅), self) ∧
    (∀ s mot, s ∈ sents (model text0) →
       mot ∈ ["date"; "année"; "créé en"] →
       range_of mot (lower (text s)) → text s ∈ d) ∧
    (∀ s mot, s ∈ sents (model text0) →
       mot ∈ ["technique"; "huile"; "aquarelle"; "acrylique"] →
       range_of mot (lower (text s)) → text s ∈ q) ∧
    ((∀ e, e ∈ ents (model text0) →
        label_ e ≠ "PER" ∧ label_ e ≠ "WORK_OF_ART") →
     ∀ s, s ∈ sents (model text0) → range_of "huile" (lower (text s)) →
       text s ∈ q ∧ a = ∅ ∧ t = ∅).
Proof.
  cbv zeta. eexists _, _, _, _. split; [apply identify_available|].
  split; [|split].
  - intros s mot Hs Hmot Hr. apply elem_of_mentioning. naive_solver.
  - intros s mot Hs Hmot Hr. apply elem_of_mentioning. naive_solver.
  - intros Hents s Hs Hr. split; [|split].
    + apply elem_of_mentioning. exists s. split; [done|]. split; [done|].
      exists "huile". split; [|done]. unfold mots_techniques. set_solver.
    + apply labelled_empty. naive_solver.
    + apply labelled_empty. naive_solver.
Qed.

(** C1, as stated, fails: a sentence containing "oil", "year" and
    "created in" reaches neither [techniques] nor [dates]. *)
Lemma english_keywords_not_matched :
  let sentence := "Oil on canvas, created in the year 1990." in
  let self := {| document := no_pages; nlp := Some (one_sentence []) |} in
  (range_of "oil" (lower_latin1 sentence) ∧
   range_of "year" (lower_latin1 sentence) ∧
   range_of "created in" (lower_latin1 sentence)) ∧
  sents (one_sentence [] sentence) = [{| text := sentence; label_ := "" |}] ∧
  fst (identify_artwork_info lower_latin1 sentence self) =
  Ok (info ∅ ∅ ∅ ∅ ∅).
Proof.
  cbv zeta. split; [|split].
  - rewrite <-!contains_spec. by vm_compute.
  - reflexivity.
  - vm_compute. reflexivity.
Qed.

(** C2 (as amended): with a model loaded, the result is a dictionary whose
    keys are exactly "artistes", "titres", "dates", "techniques" and
    "dimensions", each holding a set of strings; a category without a match
    is present and holds the empty set. *)
Theorem five_categories (lower : string → string) (document : Document)
    (model : Language) (text0 : string) :
  let self := {| document := document; nlp := Some model |} in
  ∃ result_ : gmap string value,
    fst (identify_artwork_info lower text0 self) = Ok result_ ∧
    dom result_ =
      {[ "artistes"; "titres"; "dates"; "techniques"; "dimensions" ]} ∧
    (∀ key, key ∈ dom result_ → ∃ xs, result_ !! key = Some (Set_ xs)) ∧
    ((∀ e, e ∈ ents (model text0) → label_ e ≠ "PER") →
     result_ !! "artistes" = Some (Set_ ∅)) ∧
    ((∀ e, e ∈ ents (model text0) → label_ e ≠ "WORK_OF_ART") →
     result_ !! "titres" = Some (Set_ ∅)) ∧
    ((∀ s mot, s ∈ sents (model text0) →
        mot ∈ ["date"; "année"; "créé en"] →
        ¬ range_of mot (lower (text s))) →
     result_ !! "dates" = Some (Set_ ∅)) ∧
    ((∀ s mot, s ∈ sents (model text0) →
        mot ∈ ["technique"; "huile"; "aquarelle"; "acrylique"] →
        ¬ range_of mot (lower (text s))) →
     result_ !! "techniques" = Some (Set_ ∅)) ∧
    result_ !! "dimensions" = Some (Set_ ∅).
Proof.
  cbv zeta. eexists. rewrite identify_available. split; [done|].
  split; [|split; [|repeat split]].
  - unfold info. rewrite !dom_insert_L, dom_singleton_L. set_solver.
  - intros key. unfold info. rewrite !dom_insert_L, dom_singleton_L.
    rewrite !elem_of_union, !elem_of_singleton.
    intros [->|[->|[->|[->| ->]]]]; by eexists.
  - intros H. by rewrite (labelled_empty _ _ H).
  - intros H. by rewrite (labelled_empty _ _ H).
  - intros H. by rewrite (mentioning_empty _ mots_dates _ H).
  - intros H. by rewrite (mentioning_empty _ mots_techniques _ H).
Qed.

(** C2, as stated, fails: the result has no key "artists" and no key
    "titles". *)
Lemma english_keys_absent :
  let self := {| document := no_pages; nlp := Some (one_sentence []) |} in
  ∃ result_ : gmap string value,
    fst (identify_artwork_info lower_latin1 "" self) = Ok result_ ∧
    result_ !! "artists" = None ∧ result_ !! "titles" = None ∧
    dom result_ ≠
      {[ "artists"; "titles"; "dates"; "techniques"; "dimensions" ]}.
Proof.
  cbv zeta. exists (info ∅ ∅ ∅ ∅ ∅). repeat split; try reflexivity.
  intros H.
  assert (is_Some (info ∅ ∅ ∅ ∅ ∅ !! "artists")) as [v Hv].
  { apply elem_of_dom. rewrite H. set_solver. }
  discriminate Hv.
Qed.

(** C3 (as amended): with a model loaded, [artistes] holds exactly the
    surface texts of the entities labelled PER and [titres] exactly those of
    the entities labelled WORK_OF_ART; an entity with any other label leaves
    the dictionary as it is, so that removing these entities from the
    annotation does not change the result. *)
Theorem entity_labels (lower : string → string) (document : Document)
    (model : Language) (text0 : string) :
  let self := {| document := document; nlp := Some model |} in
  let kept : Language := λ t,
    {| ents := filter (λ e, label_ e = "PER" ∨ label_ e = "WORK_OF_ART")
                      (ents (model t));
       sents := sents (model t) |} in
  ∃ a t d q : gset string,
    identify_artwork_info lower text0 self = (Ok (info a t d q ∅), self) ∧
    (∀ x, x ∈ a ↔
       ∃ e, e ∈ ents (model text0) ∧ label_ e = "PER" ∧ text e = x) ∧
    (∀ x, x ∈ t ↔
       ∃ e, e ∈ ents (model text0) ∧ label_ e = "WORK_OF_ART" ∧ text e = x) ∧
    (∀ (artwork_info : gmap string value) (e : Span),
       label_ e ≠ "PER" → label_ e ≠ "WORK_OF_ART" →
       entity_step artwork_info e = Ok artwork_info) ∧
    fst (identify_artwork_info lower text0
           {| document := document; nlp := Some kept |}) =
    Ok (info a t d q ∅).
Proof.
  cbv zeta. eexists _, _, _, _. split; [apply identify_available|].
  split; [|split; [|split]].
  - intros x. apply elem_of_labelled.
  - intros x. apply elem_of_labelled.
  - intros artwork_info e HP HW. unfold entity_step.
    by rewrite !decide_False.
  - rewrite identify_available. cbn [fst ents sents].
    rewrite !labelled_filter by naive_solver. done.
Qed.

(** C3, as stated, fails: an entity whose type is PERSON reaches no
    category (and the sentence "... created in 1990." is not dated). *)
Lemma person_label_not_matched :
  let model :=
    one_sentence [{| text := "Jean Dupont"; label_ := "PERSON" |}] in
  let self := {| document := no_pages; nlp := Some model |} in
  ents (model "Jean Dupont created in 1990.") =
    [{| text := "Jean Dupont"; label_ := "PERSON" |}] ∧
  fst (identify_artwork_info lower_latin1 "Jean Dupont created in 1990."
         self) = Ok (info ∅ ∅ ∅ ∅ ∅).
Proof. cbv zeta. split; [reflexivity|]. vm_compute. reflexivity. Qed.

(** C5: with a model loaded, the two keyword tests of a sentence are made
    one after the other, neither skipping the other: a sentence that
    matches a keyword of each list is added to [dates] and to [techniques]
    by the same step, and is in both categories of the result. *)
Theorem both_categories (lower : string → string) (document : Document)
    (model : Language) (text0 : string) :
  let self := {| document := document; nlp := Some model |} in
  ∃ a t d q : gset string,
    identify_artwork_info lower text0 self = (Ok (info a t d q ∅), self) ∧
    (∀ s mot1 mot2, s ∈ sents (model text0) →
       mot1 ∈ ["date"; "année"; "créé en"] →
       range_of mot1 (lower (text s)) →
       mot2 ∈ ["technique"; "huile"; "aquarelle"; "acrylique"] →
       range_of mot2 (lower (text s)) →
       text s ∈ d ∧ text s ∈ q) ∧
    (∀ (s : Span) (mot1 mot2 : string) (a' t' d' q' m' : gset string),
       mot1 ∈ ["date"; "année"; "créé en"] →
       range_of mot1 (lower (text s)) →
       mot2 ∈ ["technique"; "huile"; "aquarelle"; "acrylique"] →
       range_of mot2 (lower (text s)) →
       sentence_step lower (info a' t' d' q' m') s =
       Ok (info a' t' (d' ∪ {[text s]}) (q' ∪ {[text s]}) m')).
Proof.
  cbv zeta. eexists _, _, _, _. split; [apply identify_available|]. split.
  - intros s mot1 mot2 Hs H1 Hr1 H2 Hr2.
    split; apply elem_of_mentioning; naive_solver.
  - intros s mot1 mot2 a' t' d' q' m' H1 Hr1 H2 Hr2.
    unfold sentence_step.
    assert (any_in ["date"; "année"; "créé en"] (lower (text s)) = true)
      as -> by (apply any_in_spec; eauto).
    assert (any_in ["technique"; "huile"; "aquarelle"; "acrylique"]
              (lower (text s)) = true) as ->
      by (apply any_in_spec; eauto).
    rewrite add_dates. cbn [mbind result_bind]. by rewrite add_techniques.
Qed.

(** C8: with a model loaded, whose annotation of the empty text is made of
    non-empty ranges of that text (so has no span at all), the empty string
    is classified without an exception into the five categories, all
    empty. *)
Theorem empty_text (lower : string → string) (document : Document)
    (model : Language) :
  annotates "" (model "") →
  identify_artwork_info lower ""
    {| document := document; nlp := Some model |} =
  (Ok {[ "artistes" := Set_ ∅; "titres" := Set_ ∅; "dates" := Set_ ∅;
         "techniques" := Set_ ∅; "dimensions" := Set_ ∅ ]},
   {| document := document; nlp := Some model |}).
Proof.
  intros [Hents Hsents]%annotates_empty.
  rewrite identify_available, Hents, Hsents. reflexivity.
Qed.

Lemma empty_text_witness :
  annotates "" (one_sentence [jean_dupont] "") ∧
  identify_artwork_info lower_latin1 ""
    {| document := catalogue; nlp := Some (one_sentence [jean_dupont]) |} =
  (Ok {[ "artistes" := Set_ ∅; "titres" := Set_ ∅; "dates" := Set_ ∅;
         "techniques" := Set_ ∅; "dimensions" := Set_ ∅ ]},
   {| document := catalogue; nlp := Some (one_sentence [jean_dupont]) |}).
Proof.
  assert (annotates "" (one_sentence [jean_dupont] "")) as H
    by (unfold annotates; simpl; constructor).
  split; [exact H|].
  exact (empty_text lower_latin1 catalogue (one_sentence [jean_dupont]) H).
Defined.

(** C9: with a model loaded, [dimensions] is the empty set in the result:
    neither the step of the entity pass nor the step of the sentence pass
    changes what the dictionary holds under "dimensions". *)
Theorem dimensions_empty (lower : string → string) (document : Document)
    (model : Language) (text0 : string) :
  let self := {| document := document; nlp := Some model |} in
  (∃ result_ : gmap string value,
     fst (identify_artwork_info lower text0 self) = Ok result_ ∧
     result_ !! "dimensions" = Some (Set_ ∅)) ∧
  (∀ (artwork_info artwork_info' : gmap string value) (ent : Span),
     entity_step artwork_info ent = Ok artwork_info' →
     artwork_info' !! "dimensions" = artwork_info !! "dimensions") ∧
  (∀ (artwork_info artwork_info' : gmap string value) (sent : Span),
     sentence_step lower artwork_info sent = Ok artwork_info' →
     artwork_info' !! "dimensions" = artwork_info !! "dimensions").
Proof.
  cbv zeta. split; [|split].
  - eexists. rewrite identify_available. split; reflexivity.
  - intros d d' ent. unfold entity_step.
    repeat case_decide; try (intros [= <-]; done);
      by apply getitem_add_other.
  - intros d d' sent. unfold sentence_step.
    destruct (any_in ["date"; "année"; "créé en"] (lower (text sent)));
      destruct (any_in ["technique"; "huile"; "aquarelle"; "acrylique"]
                  (lower (text sent))).
    + destruct (getitem_add "dates" (text sent) d) as [d1|e] eqn:E1;
        cbn [mbind result_bind]; [|done].
      intros E2.
      rewrite (getitem_add_other "techniques" "dimensions" (text sent) d1 d'
                 ltac:(done) E2).
      by apply (getitem_add_other "dates" _ (text sent)).
    + destruct (getitem_add "dates" (text sent) d) as [d1|e] eqn:E1;
        cbn [mbind result_bind]; [|done].
      intros [= <-].
      by apply (getitem_add_other "dates" _ (text sent)).
    + cbn [mbind result_bind]. by apply getitem_add_other.
    + cbn [mbind result_bind]. by intros [= <-].
Qed.

(** * Properties of the extractor *)

Lemma identify_frame (lower : string → string) (text0 : string)
    (self : ArtworkPDFExtractor) :
  snd (identify_artwork_info lower text0 self) = self.
Proof.
  destruct self as [document [model|]].
  - by rewrite identify_available.
  - reflexivity.
Qed.

Lemma after_classifying_frame (lower : string → string)
    (texts : list string) (self : ArtworkPDFExtractor) :
  after_classifying lower texts self = self.
Proof.
  unfold after_classifying. induction texts as [|text0 texts IH]; [done|].
  cbn [foldl]. by rewrite identify_frame.
Qed.

(** C4: when loading the model raises [OSError], the constructor still
    returns an instance, with [nlp] set to [None]; on that instance the
    classifier returns, for every text and without raising, a dictionary
    with the single key "erreur", and [extract_text] and [extract_images]
    give what they give on an instance of the same document with a model
    loaded. *)
Theorem model_unavailable (lower : string → string) (PILImage : Type)
    (Image_open : list byte → result PILImage)
    (fitz_open : list byte → result Document)
    (spacy_load : string → result Language)
    (pdf_file : list byte) (document : Document) :
  fitz_open pdf_file = Ok document →
  spacy_load "fr_core_news_md" = Raise OSError →
  let self := {| document := document; nlp := None |} in
  __init__ fitz_open spacy_load pdf_file = Ok self ∧
  (∀ text0, ∃ payload : gmap string value,
     identify_artwork_info lower text0 self = (Ok payload, self) ∧
     payload = {[ "erreur" := Str "Modèle NLP non disponible" ]} ∧
     dom payload = {[ "erreur" ]}) ∧
  (∀ model : Language,
     let loaded := {| document := document; nlp := Some model |} in
     fst (extract_text self) = fst (extract_text loaded) ∧
     fst (extract_images Image_open self) =
     fst (extract_images Image_open loaded)).
Proof.
  intros Hopen Hload. cbv zeta. split; [|split].
  - unfold __init__. rewrite Hopen. cbn [mbind result_bind].
    by rewrite Hload.
  - intros text0. eexists. split; [reflexivity|]. split; [done|].
    apply dom_singleton_L.
  - intros model. split; [reflexivity|].
    by rewrite !extract_images_flat.
Qed.

Lemma model_unavailable_witness :
  let fitz_open : list byte → result Document := λ _, Ok catalogue in
  let spacy_load : string → result Language := λ _, Raise OSError in
  let self := {| document := catalogue; nlp := None |} in
  __init__ fitz_open spacy_load [x25; x50; x44; x46] = Ok self ∧
  (∀ text0, ∃ payload : gmap string value,
     identify_artwork_info lower_latin1 text0 self = (Ok payload, self) ∧
     payload = {[ "erreur" := Str "Modèle NLP non disponible" ]} ∧
     dom payload = {[ "erreur" ]}) ∧
  (∀ model : Language,
     let loaded := {| document := catalogue; nlp := Some model |} in
     fst (extract_text self) = fst (extract_text loaded) ∧
     fst (extract_images png_open self) =
     fst (extract_images png_open loaded)).
Proof.
  exact (model_unavailable lower_latin1 (list byte) png_open
           (λ _, Ok catalogue) (λ _, Raise OSError) [x25; x50; x44; x46]
           catalogue eq_refl eq_refl).
Defined.

(** C6: the text of a document is the concatenation, in page order and
    with nothing between the pages, of the texts of its pages. *)
Theorem extract_text_concat (self : ArtworkPDFExtractor) :
  extract_text self =
  (Ok (String.concat "" (get_text <$> pages (document self))), self).
Proof.
  change (extract_text self) with
    (for_each (pages (document self)) ""
       (λ full_text page, Ok (full_text ++ get_text page)), self).
  by rewrite extract_text_loop.
Qed.

(** What [extract_images] returns is made of the decoded resources only. *)
Lemma extract_images_decoded {PILImage : Type}
    (Image_open : list byte → result PILImage)
    (self : ArtworkPDFExtractor) (images : list PILImage) :
  fst (extract_images Image_open self) = Ok images →
  Forall2 (λ img b, decode_item Image_open (document self) img = Ok b)
          (listed_images (document self)) images.
Proof.
  rewrite extract_images_flat. cbn [fst].
  intros (decoded & -> & H)%decoded_all. done.
Qed.

(** The first listed resource that does not decode ends the call with its
    exception. *)
Lemma extract_images_aborts {PILImage : Type}
    (Image_open : list byte → result PILImage)
    (self : ArtworkPDFExtractor) (before rest : list ImageItem)
    (img : ImageItem) (decoded : list PILImage) (e : exception) :
  listed_images (document self) = (before ++ img :: rest)%list →
  Forall2 (λ img b, decode_item Image_open (document self) img = Ok b)
          before decoded →
  decode_item Image_open (document self) img = Raise e →
  fst (extract_images Image_open self) = Raise e.
Proof.
  intros Hl HF He. rewrite extract_images_flat, Hl. cbn [fst].
  by apply (decode_fails _ _ _ _ _ _ _ decoded).
Qed.

(** C7 (as amended): when every listed resource of the document is fetched
    and decoded without an exception, [extract_images] returns the decoded
    bitmaps, one per listed resource, in page order and, within a page, in
    listing order, each decoded from the bytes of its stream. *)
Theorem extract_images_in_order (PILImage : Type)
    (Image_open : list byte → result PILImage)
    (self : ArtworkPDFExtractor) (images : list PILImage) :
  Forall2 (λ img b, decode_item Image_open (document self) img = Ok b)
          (concat (get_images <$> pages (document self))) images →
  extract_images Image_open self = (Ok images, self) ∧
  length images = length (concat (get_images <$> pages (document self))).
Proof.
  intros H. split.
  - rewrite extract_images_flat. unfold listed_images. f_equal.
    apply (decode_all _ _ _ _ [] images H).
  - symmetry. by eapply Forall2_length.
Qed.

Lemma extract_images_in_order_witness :
  let self := {| document := catalogue; nlp := None |} in
  concat (get_images <$> pages catalogue) = [item 7; item 9; item 12] ∧
  extract_images png_open self = (Ok [[x07]; [x09]; [x0c]], self) ∧
  length [[x07]; [x09]; [x0c]] =
  length (concat (get_images <$> pages catalogue)).
Proof.
  split; [reflexivity|].
  apply (extract_images_in_order (list byte) png_open
           {| document := catalogue; nlp := None |} [[x07]; [x09]; [x0c]]).
  repeat constructor.
Defined.

(** C7, as stated, fails: a parsed document with one listed resource whose
    stream does not decode gives no bitmap but an exception. *)
Lemma damaged_image_aborts :
  concat (get_images <$> pages damaged) = [item 5] ∧
  fst (extract_images png_open {| document := damaged; nlp := None |}) =
  Raise UnidentifiedImageError.
Proof. split; reflexivity. Qed.

(** C10: a call of the classifier returns the instance as it received it;
    after any number of calls the document and the model are the same, and
    [extract_text] and [extract_images] give the same results as before. *)
Theorem classification_frame (lower : string → string) (PILImage : Type)
    (Image_open : list byte → result PILImage)
    (self : ArtworkPDFExtractor) (texts : list string) :
  (∀ text0, snd (identify_artwork_info lower text0 self) = self) ∧
  let self' := after_classifying lower texts self in
  document self' = document self ∧
  nlp self' = nlp self ∧
  extract_text self' = extract_text self ∧
  extract_images Image_open self' = extract_images Image_open self.
Proof.
  split; [intros text0; apply identify_frame|].
  cbv zeta. by rewrite after_classifying_frame.
Qed.

(** * Further properties *)

(** ** The constructor *)


(** ** The classifier *)

Lemma labelled_mono (l : string) (es es' : list Span) :
  (∀ e, e ∈ es → e ∈ es') → labelled l es ⊆ labelled l es'.
Proof.
  intros H x. rewrite !elem_of_labelled. naive_solver.
Qed.

Lemma mentioning_mono lower (mots : list string) (ss ss' : list Span) :
  (∀ s, s ∈ ss → s ∈ ss') →
  mentioning lower mots ss ⊆ mentioning lower mots ss'.
Proof.
  intros H x. rewrite !elem_of_mentioning. naive_solver.
Qed.

Lemma range_of_trans (s t u : string) :
  range_of s t → range_of t u → range_of s u.
Proof.
  intros (pre & post & ->) (pre' & post' & ->).
  exists (pre' ++ pre), (post ++ post').
  by rewrite !string_app_assoc.
Qed.

Lemma size_list_to_set_le (l : list string) :
  (size (list_to_set l : gset string) ≤ length l)%nat.
Proof.
  induction l as [|x l IH]; [done|].
  cbn [list_to_set length]. rewrite size_union_alt, size_singleton.
  assert (size (list_to_set l ∖ {[x]} : gset string) ≤
          size (list_to_set l : gset string))%nat
    by (apply subseteq_size; set_solver).
  lia.
Qed.

Lemma info_inj (a t d q m a' t' d' q' m' : gset string) :
  info a t d q m = info a' t' d' q' m' →
  a = a' ∧ t = t' ∧ d = d' ∧ q = q' ∧ m = m'.
Proof.
  intros H.
  assert (∀ key, info a t d q m !! key = info a' t' d' q' m' !! key) as L
    by (intros key; by rewrite H).
  pose proof (L "artistes") as H1. pose proof (L "titres") as H2.
  pose proof (L "dates") as H3. pose proof (L "techniques") as H4.
  pose proof (L "dimensions") as H5.
  cbv [info] in H1, H2, H3, H4, H5.
  vm_compute in H1, H2, H3, H4, H5. naive_solver.
Qed.


(** X4: with a model loaded, [dates] and [techniques] hold nothing but
    texts of sentences of the annotation whose lower-cased text contains a
    keyword of the list of the category. *)
Theorem categories_only_matching (lower : string → string)
    (document : Document) (model : Language) (text0 : string) :
  let self := {| document := document; nlp := Some model |} in
  ∃ a t d q : gset string,
    identify_artwork_info lower text0 self = (Ok (info a t d q ∅), self) ∧
    (∀ x, x ∈ d →
       ∃ s mot, s ∈ sents (model text0) ∧ text s = x ∧
         mot ∈ ["date"; "année"; "créé en"] ∧
         range_of mot (lower (text s))) ∧
    (∀ x, x ∈ q →
       ∃ s mot, s ∈ sents (model text0) ∧ text s = x ∧
         mot ∈ ["technique"; "huile"; "aquarelle"; "acrylique"] ∧
         range_of mot (lower (text s))).
Proof.
  cbv zeta. eexists _, _, _, _. split; [apply identify_available|].
  split; intros x (s & Hs & Hx & mot & Hmot & Hr)%elem_of_mentioning;
    by exists s, mot.
Qed.

(** X5: the keywords are searched as substrings, not as words: a sentence
    whose lower-cased text contains any string [w] that itself contains a
    keyword is put in the category of that keyword. *)
Theorem keyword_inside_word (lower : string → string) (document : Document)
    (model : Language) (text0 : string) (s : Span) (w : string) :
  s ∈ sents (model text0) →
  range_of w (lower (text s)) →
  let self := {| document := document; nlp := Some model |} in
  ∃ a t d q : gset string,
    identify_artwork_info lower text0 self = (Ok (info a t d q ∅), self) ∧
    ((∃ mot, mot ∈ ["date"; "année"; "créé en"] ∧ range_of mot w) →
     text s ∈ d) ∧
    ((∃ mot, mot ∈ ["technique"; "huile"; "aquarelle"; "acrylique"] ∧
             range_of mot w) →
     text s ∈ q).
Proof.
  intros Hs Hw. cbv zeta. eexists _, _, _, _.
  split; [apply identify_available|].
  split; intros (mot & Hmot & Hr); apply elem_of_mentioning;
    exists s; (split; [done|]); (split; [done|]); exists mot;
    (split; [done|]); by apply (range_of_trans _ w).
Qed.

Lemma keyword_inside_word_witness :
  let s := {| text := "Trois candidates."; label_ := "" |} in
  let self := {| document := no_pages; nlp := Some (one_sentence []) |} in
  ∃ a t d q : gset string,
    identify_artwork_info lower_latin1 "Trois candidates." self =
    (Ok (info a t d q ∅), self) ∧
    ((∃ mot, mot ∈ ["date"; "année"; "créé en"] ∧
             range_of mot "candidates") → text s ∈ d) ∧
    ((∃ mot, mot ∈ ["technique"; "huile"; "aquarelle"; "acrylique"] ∧
             range_of mot "candidates") → text s ∈ q).
Proof.
  apply (keyword_inside_word lower_latin1 no_pages (one_sentence [])
           "Trois candidates."
           {| text := "Trois candidates."; label_ := "" |} "candidates").
  - vm_compute. left.
  - apply contains_spec. vm_compute. reflexivity.
Defined.

(** X6: the classification grows with the annotation: when every entity
    and every sentence of one annotation occurs in another, each category
    of the first result is included in that of the second. *)
Theorem classification_monotone (lower : string → string)
    (document document' : Document) (model model' : Language)
    (text0 text0' : string) :
  (∀ e, e ∈ ents (model text0) → e ∈ ents (model' text0')) →
  (∀ s, s ∈ sents (model text0) → s ∈ sents (model' text0')) →
  ∃ a t d q a' t' d' q' : gset string,
    fst (identify_artwork_info lower text0
           {| document := document; nlp := Some model |}) =
    Ok (info a t d q ∅) ∧
    fst (identify_artwork_info lower text0'
           {| document := document'; nlp := Some model' |}) =
    Ok (info a' t' d' q' ∅) ∧
    a ⊆ a' ∧ t ⊆ t' ∧ d ⊆ d' ∧ q ⊆ q'.
Proof.
  intros He Hs. eexists _, _, _, _, _, _, _, _.
  rewrite !identify_available. split; [done|]. split; [done|].
  repeat split; by (apply labelled_mono || apply mentioning_mono).
Qed.

Lemma classification_monotone_witness :
  ∃ a t d q a' t' d' q' : gset string,
    fst (identify_artwork_info lower_latin1 ""
           {| document := no_pages;
              nlp := Some (annotated [jean_dupont] [dated]) |}) =
    Ok (info a t d q ∅) ∧
    fst (identify_artwork_info lower_latin1 ""
           {| document := catalogue;
              nlp := Some (annotated [la_joconde; jean_dupont]
                                     [painted; dated]) |}) =
    Ok (info a' t' d' q' ∅) ∧
    a ⊆ a' ∧ t ⊆ t' ∧ d ⊆ d' ∧ q ⊆ q'.
Proof.
  apply (classification_monotone lower_latin1 no_pages catalogue
           (annotated [jean_dupont] [dated])
           (annotated [la_joconde; jean_dupont] [painted; dated]) "" "").
  - simpl. set_solver.
  - simpl. set_solver.
Defined.

(** X7: the classification depends only on which spans the annotation has,
    not on their order or on how often each occurs. *)
Theorem classification_order_insensitive (lower : string → string)
    (document document' : Document) (model model' : Language)
    (text0 text0' : string) :
  (∀ e, e ∈ ents (model text0) ↔ e ∈ ents (model' text0')) →
  (∀ s, s ∈ sents (model text0) ↔ s ∈ sents (model' text0')) →
  fst (identify_artwork_info lower text0
         {| document := document; nlp := Some model |}) =
  fst (identify_artwork_info lower text0'
         {| document := document'; nlp := Some model' |}).
Proof.
  intros He Hs. rewrite !identify_available. cbn [fst].
  do 2 f_equal; apply (anti_symm (⊆));
    (apply labelled_mono || apply mentioning_mono); naive_solver.
Qed.

Lemma classification_order_insensitive_witness :
  fst (identify_artwork_info lower_latin1 ""
         {| document := no_pages;
            nlp := Some (annotated [jean_dupont; la_joconde; jean_dupont]
                                   [dated; painted]) |}) =
  fst (identify_artwork_info lower_latin1 ""
         {| document := no_pages;
            nlp := Some (annotated [la_joconde; jean_dupont]
                                   [painted; painted; dated]) |}).
Proof.
  apply (classification_order_insensitive lower_latin1 no_pages no_pages
           (annotated [jean_dupont; la_joconde; jean_dupont]
                      [dated; painted])
           (annotated [la_joconde; jean_dupont] [painted; painted; dated])
           "" "").
  - simpl. set_solver.
  - simpl. set_solver.
Defined.

Lemma length_filter_disjoint {A : Type} (P Q : A → Prop)
    `{∀ x, Decision (P x)} `{∀ x, Decision (Q x)} (l : list A) :
  (∀ x, P x → Q x → False) →
  (length (filter P l) + length (filter Q l) ≤ length l)%nat.
Proof.
  intros HPQ. induction l as [|x l IH]; [done|].
  rewrite !filter_cons. repeat case_decide; cbn [length]; try lia.
  naive_solver.
Qed.

(** X8: a category holds each string once: [artistes] and [titres]
    together have at most as many members as the annotation has entities,
    each at most as many as there are entities with its label, and [dates]
    and [techniques] each at most as many as there are sentences. *)
Theorem category_sizes (lower : string → string) (document : Document)
    (model : Language) (text0 : string) :
  let self := {| document := document; nlp := Some model |} in
  ∃ a t d q : gset string,
    identify_artwork_info lower text0 self = (Ok (info a t d q ∅), self) ∧
    (size a ≤
       length (filter (λ e, label_ e = "PER") (ents (model text0))))%nat ∧
    (size t ≤
       length (filter (λ e, label_ e = "WORK_OF_ART")
                      (ents (model text0))))%nat ∧
    (size a + size t ≤ length (ents (model text0)))%nat ∧
    (size d ≤ length (sents (model text0)))%nat ∧
    (size q ≤ length (sents (model text0)))%nat.
Proof.
  cbv zeta. eexists _, _, _, _. split; [apply identify_available|].
  assert (∀ l es, size (labelled l es) ≤
                  length (filter (λ e, label_ e = l) es))%nat as Hl.
  { intros l es. unfold labelled.
    etrans; [apply size_list_to_set_le|]. by rewrite length_fmap. }
  assert (∀ mots ss, size (mentioning lower mots ss) ≤ length ss)%nat as Hm.
  { intros mots ss. unfold mentioning.
    etrans; [apply size_list_to_set_le|]. rewrite length_fmap.
    apply length_filter. }
  split; [apply Hl|]. split; [apply Hl|]. split; [|split; apply Hm].
  pose proof (Hl "PER" (ents (model text0))).
  pose proof (Hl "WORK_OF_ART" (ents (model text0))).
  pose proof (length_filter_disjoint
                (λ e, label_ e = "PER") (λ e, label_ e = "WORK_OF_ART")
                (ents (model text0))) as Hd.
  assert (∀ e : Span, label_ e = "PER" → label_ e = "WORK_OF_ART" → False)
    as HPW by (intros e ->; discriminate).
  specialize (Hd HPW). lia.
Qed.

(** ** Text extraction *)

Lemma concat_app (xs ys : list string) :
  String.concat "" (xs ++ ys)%list =
  String.concat "" xs ++ String.concat "" ys.
Proof.
  induction xs as [|x xs IH]; [done|].
  change ((x :: xs) ++ ys)%list with (x :: (xs ++ ys)%list).
  by rewrite !concat_cons, IH, string_app_assoc.
Qed.

Lemma string_length_app (s t : string) :
  String.length (s ++ t) = (String.length s + String.length t)%nat.
Proof.
  induction s as [|c s IH]; [done|].
  change (String c s ++ t) with (String c (s ++ t)).
  cbn [String.length]. by rewrite IH.
Qed.

Lemma concat_length (xs : list string) :
  String.length (String.concat "" xs) = sum_list (String.length <$> xs).
Proof.
  induction xs as [|x xs IH]; [done|].
  by rewrite concat_cons, string_length_app, IH.
Qed.

Lemma extract_text_join (self : ArtworkPDFExtractor) :
  extract_text self =
  (Ok (String.concat "" (get_text <$> pages (document self))), self).
Proof.
  change (extract_text self) with
    (for_each (pages (document self)) ""
       (λ full_text page, Ok (full_text ++ get_text page)), self).
  by rewrite extract_text_loop.
Qed.

(** X9: the text of page [i] stands in the extracted text right after the
    texts of the pages before it and right before those of the pages after
    it, and the extracted text is as long as the page texts together:
    nothing is dropped, moved or inserted. *)
Theorem page_text_position (self : ArtworkPDFExtractor) (i : nat)
    (page : Page) :
  pages (document self) !! i = Some page →
  ∃ full_text : string,
    fst (extract_text self) = Ok full_text ∧
    full_text =
      String.concat "" (get_text <$> take i (pages (document self))) ++
      get_text page ++
      String.concat "" (get_text <$> drop (S i) (pages (document self))) ∧
    String.length full_text =
      sum_list ((String.length ∘ get_text) <$> pages (document self)).
Proof.
  intros Hi. eexists. rewrite extract_text_join. split; [done|]. split.
  - rewrite <-(take_drop_middle _ _ _ Hi) at 1.
    by rewrite fmap_app, fmap_cons, concat_app, concat_cons.
  - by rewrite concat_length, <-list_fmap_compose.
Qed.

Lemma page_text_position_witness :
  ∃ full_text : string,
    fst (extract_text {| document := catalogue; nlp := None |}) =
    Ok full_text ∧
    full_text =
      String.concat "" (get_text <$> take 1 (pages catalogue)) ++
      "Huile sur toile, créé en 1990." ++
      String.concat "" (get_text <$> drop 2 (pages catalogue)) ∧
    String.length full_text =
      sum_list ((String.length ∘ get_text) <$> pages catalogue).
Proof.
  exact (page_text_position {| document := catalogue; nlp := None |} 1
           {| get_text := "Huile sur toile, créé en 1990.";
              get_images := [item 12] |} eq_refl).
Defined.

(** ** Image extraction *)

(** X10: when [extract_images] returns, every listed resource was fetched
    and decoded: the list returned holds, position by position, the
    decoding of the resources in page order then listing order, so it is as
    long as the listing, and the instance is unchanged. *)
Theorem extract_images_sound (PILImage : Type)
    (Image_open : list byte → result PILImage)
    (self : ArtworkPDFExtractor) (images : list PILImage) :
  fst (extract_images Image_open self) = Ok images →
  Forall2 (λ img b, decode_item Image_open (document self) img = Ok b)
          (concat (get_images <$> pages (document self))) images ∧
  length images = length (concat (get_images <$> pages (document self))) ∧
  snd (extract_images Image_open self) = self.
Proof.
  rewrite extract_images_flat. cbn [fst snd]. unfold listed_images.
  intros (decoded & -> & H)%decoded_all. split; [done|]. split; [|done].
  symmetry. by eapply Forall2_length.
Qed.

Lemma extract_images_sound_witness :
  Forall2 (λ img b, decode_item png_open catalogue img = Ok b)
          (concat (get_images <$> pages catalogue))
          [[x07]; [x09]; [x0c]] ∧
  length [[x07]; [x09]; [x0c]] =
  length (concat (get_images <$> pages catalogue)) ∧
  snd (extract_images png_open {| document := catalogue; nlp := None |}) =
  {| document := catalogue; nlp := None |}.
Proof.
  exact (extract_images_sound (list byte) png_open
           {| document := catalogue; nlp := None |}
           [[x07]; [x09]; [x0c]] eq_refl).
Defined.

(** X11: the call ends at the first listed resource, in page order then
    listing order, that is not fetched and decoded, with the exception of
    that resource; what later resources would raise does not matter. *)
Theorem first_failure_decides (PILImage : Type)
    (Image_open : list byte → result PILImage)
    (self : ArtworkPDFExtractor) (before rest : list ImageItem)
    (img : ImageItem) (decoded : list PILImage) (e : exception) :
  concat (get_images <$> pages (document self)) =
    (before ++ img :: rest)%list →
  Forall2 (λ img b, decode_item Image_open (document self) img = Ok b)
          before decoded →
  decode_item Image_open (document self) img = Raise e →
  extract_images Image_open self = (Raise e, self).
Proof.
  intros Hl HF He. rewrite extract_images_flat. unfold listed_images.
  rewrite Hl. f_equal. by apply (decode_fails _ _ _ _ _ _ _ decoded).
Qed.

Lemma first_failure_decides_witness :
  decode_item png_open mixed (item 3) = Raise (KeyError "image") ∧
  extract_images png_open {| document := mixed; nlp := None |} =
  (Raise UnidentifiedImageError, {| document := mixed; nlp := None |}).
Proof.
  split; [reflexivity|].
  apply (first_failure_decides (list byte) png_open
           {| document := mixed; nlp := None |} [item 7] [item 3] (item 5)
           [[x07]] UnidentifiedImageError).
  - reflexivity.
  - repeat constructor.
  - reflexivity.
Defined.

(** X12: a listed resource whose stream dictionary has no "image" ends the
    call with [KeyError], and one whose "image" is not a byte string with
    [TypeError], when the resources listed before it decode. *)
Theorem image_entry_missing (PILImage : Type)
    (Image_open : list byte → result PILImage)
    (self : ArtworkPDFExtractor) (before rest : list ImageItem)
    (img : ImageItem) (decoded : list PILImage)
    (base_image : gmap string value) :
  concat (get_images <$> pages (document self)) =
    (before ++ img :: rest)%list →
  Forall2 (λ img b, decode_item Image_open (document self) img = Ok b)
          before decoded →
  extract_image (document self) (img_xref img) = Ok base_image →
  (base_image !! "image" = None →
   fst (extract_images Image_open self) = Raise (KeyError "image")) ∧
  (∀ v, base_image !! "image" = Some v → (∀ b, v ≠ Bytes b) →
   fst (extract_images Image_open self) = Raise TypeError).
Proof.
  intros Hl HF Hbase. rewrite extract_images_flat. unfold listed_images.
  rewrite Hl. cbn [fst]. split.
  - intros Hnone. apply (decode_fails _ _ _ _ _ _ _ decoded); [done|].
    unfold decode_item, getitem. rewrite Hbase. cbn [mbind result_bind].
    by rewrite Hnone.
  - intros v Hv Hnb. apply (decode_fails _ _ _ _ _ _ _ decoded); [done|].
    unfold decode_item, getitem. rewrite Hbase. cbn [mbind result_bind].
    rewrite Hv. cbn [mbind result_bind].
    destruct v as [n|s|b|xs]; try done. by destruct (Hnb b).
Qed.

Lemma image_entry_missing_witness :
  concat (get_images <$> pages keyless) = [item 7; item 3; item 5] ∧
  extract_image keyless 3 = Ok ∅ ∧
  fst (extract_images png_open {| document := keyless; nlp := None |}) =
  Raise (KeyError "image").
Proof.
  split; [reflexivity|]. split; [reflexivity|].
  apply (image_entry_missing (list byte) png_open
           {| document := keyless; nlp := None |} [item 7] [item 5] (item 3)
           [[x07]] ∅).
  - reflexivity.
  - repeat constructor.
  - reflexivity.
  - reflexivity.
Defined.

Lemma extract_one_by_xref {PILImage : Type}
    (Image_open : list byte → result PILImage) (d1 d2 : Document)
    (images : list PILImage) (img1 img2 : ImageItem) :
  img_xref img1 = img_xref img2 →
  extract_image d1 (img_xref img1) = extract_image d2 (img_xref img1) →
  extract_one Image_open d1 images img1 =
  extract_one Image_open d2 images img2.
Proof. unfold extract_one. by intros <- ->. Qed.

(** X13: [extract_images] uses nothing of a document but the sequence of
    the xrefs it lists and the streams stored under them: two documents
    that list the same xrefs in the same order, however split into pages
    and whatever the other columns of the listings, and that store the same
    streams under these xrefs, give the same images or the same
    exception. *)
Theorem extract_images_by_xref (PILImage : Type)
    (Image_open : list byte → result PILImage)
    (self1 self2 : ArtworkPDFExtractor) :
  img_xref <$> concat (get_images <$> pages (document self1)) =
  img_xref <$> concat (get_images <$> pages (document self2)) →
  (∀ n, n ∈ img_xref <$> concat (get_images <$> pages (document self1)) →
     extract_image (document self1) n = extract_image (document self2) n) →
  fst (extract_images Image_open self1) =
  fst (extract_images Image_open self2).
Proof.
  rewrite !extract_images_flat. unfold listed_images. cbn [fst].
  generalize (concat (get_images <$> pages (document self1))).
  generalize (concat (get_images <$> pages (document self2))).
  intros l2 l1. generalize (@nil PILImage). revert l2.
  induction l1 as [|img1 l1 IH]; intros [|img2 l2] images Hx Hs;
    try discriminate Hx; [done|].
  rewrite !fmap_cons in Hx. injection Hx as Hx1 Hx.
  cbn [for_each].
  rewrite (extract_one_by_xref Image_open (document self1) (document self2)
             images img1 img2 Hx1)
    by (apply Hs; rewrite fmap_cons; left).
  destruct (extract_one Image_open (document self2) images img2)
    as [images'|e]; [|done].
  cbn [mbind result_bind]. apply IH; [done|].
  intros n Hn. apply Hs. rewrite fmap_cons. by right.
Qed.

Lemma extract_images_by_xref_witness :
  fst (extract_images png_open {| document := catalogue; nlp := None |}) =
  fst (extract_images png_open
         {| document := one_page; nlp := Some (one_sentence []) |}).
Proof.
  apply (extract_images_by_xref (list byte) png_open
           {| document := catalogue; nlp := None |}
           {| document := one_page; nlp := Some (one_sentence []) |}).
  - reflexivity.
  - intros n _. reflexivity.
Defined.

(** ** The script *)

Lemma new_extractor_init {PILImage : Type}
    (fitz_open : list byte → result Document)
    (spacy_load : string → result Language) (pdf_file : list byte) :
  @new_extractor PILImage fitz_open spacy_load pdf_file =
  (__init__ fitz_open spacy_load pdf_file,
   match __init__ fitz_open spacy_load pdf_file with
   | Ok self =>
       if degraded self
       then [ st_warning
         "Modèle spaCy non trouvé. Certaines fonctionnalités seront limitées." ]
       else []
   | Raise _ => []
   end).
Proof.
  unfold new_extractor, __init__.
  destruct (fitz_open pdf_file) as [d|e]; [|done].
  cbn [mbind result_bind script_bind quiet].
  by destruct (spacy_load "fr_core_news_md") as [model|[]].
Qed.








(** X2: in the script the constructor call gives what [__init__] gives and
    shows at most one thing, the warning that the model was not found; it
    shows it exactly when it returns an instance without a model. *)
Theorem constructor_warning (PILImage : Type)
    (fitz_open : list byte → result Document)
    (spacy_load : string → result Language) (pdf_file : list byte) :
  let shown := snd (@new_extractor PILImage fitz_open spacy_load pdf_file) in
  let warning : st_call PILImage := st_warning
    "Modèle spaCy non trouvé. Certaines fonctionnalités seront limitées." in
  fst (@new_extractor PILImage fitz_open spacy_load pdf_file) =
  __init__ fitz_open spacy_load pdf_file ∧
  (shown = [warning] ∨ shown = []) ∧
  (shown = [warning] ↔
   ∃ self, __init__ fitz_open spacy_load pdf_file = Ok self ∧
           nlp self = None).
Proof.
  cbv zeta. rewrite new_extractor_init. cbn [fst snd]. split; [done|].
  destruct (__init__ fitz_open spacy_load pdf_file) as [[d [model|]]|e];
    cbn [degraded nlp]; split; try (by right); try (by left);
    split; try done.
  - intros (self & [= <-] & Hn). discriminate Hn.
  - intros _. by eexists.
  - intros (self & Hs & _). discriminate Hs.
Qed.



(** X15: without an uploaded file the run shows the title and the uploader
    and ends; with a file that the constructor refuses (it does not parse,
    or loading the model raises something else than [OSError]) the run shows
    the same two things and ends with the exception of the constructor. *)
Theorem main_without_instance (lower : string → string) (PILImage : Type)
    (Image_open : list byte → result PILImage)
    (fitz_open : list byte → result Document)
    (spacy_load : string → result Language) :
  let first_calls : list (st_call PILImage) :=
    [ st_title "Extracteur d'Œuvres d'Art à partir de PDF";
      st_file_uploader "Télécharger un fichier PDF" "pdf" ] in
  main lower Image_open fitz_open spacy_load None = (Ok tt, first_calls) ∧
  (∀ pdf_bytes e,
     __init__ fitz_open spacy_load pdf_bytes = Raise e →
     main lower Image_open fitz_open spacy_load (Some pdf_bytes) =
     (Raise e, first_calls)).
Proof.
  cbv zeta. split; [reflexivity|]. intros pdf_bytes e Hinit.
  unfold main. by rewrite new_extractor_init, Hinit.
Qed.




